(** * ReviewX: a shallow embedding of [main.go]

    The review service keeps one SQLite table, [reviews], and one process-wide
    counter, [idCounter], both guarded by a single mutex.  This development
    embeds the handlers of [main.go] as functions over an explicit process
    state and proves what the create, list and delete operations do.

    Conventions.
    - Go's [int] is the 64-bit two's complement integer of the platforms the
      Dockerfiles build for; it is a [Z] with its wrap-around written out
      ([wrapInt]).
    - The table lives in the database file, so it survives the process; the
      counter and the trace of a process do not.
    - Each handler runs its critical section under [mutex], so requests are
      modelled as executing one after another; the lock and unlock events
      are kept in the trace.
    - [encoding/json] and [database/sql] are libraries.  Decoding a request
      body is an input (the decoded value, or a failure); encoding produces
      a JSON value; each SQL statement of the source is given the meaning
      SQLite gives it for the schema of [initializeDatabase]. *)

From Stdlib Require Import ZArith List String Bool Lia DecimalString Sorted.
Import ListNotations.

Open Scope string_scope.
Open Scope list_scope.
Open Scope Z_scope.

(** ** Go integers *)

Module GoInt.

Definition maxInt : Z := 2 ^ 63 - 1.
Definition minInt : Z := - 2 ^ 63.

(** The value an [int] holds after an arithmetic result [z]. *)
Definition wrapInt (z : Z) : Z := (z + 2 ^ 63) mod 2 ^ 64 - 2 ^ 63.

Definition inRange (z : Z) : Prop := minInt <= z <= maxInt.

(** [%d] of [fmt]. *)
Definition formatInt (z : Z) : string := NilZero.string_of_int (Z.to_int z).

End GoInt.
Import GoInt.

(** ** Data model *)

(** [type Review struct].  The field [Review] of the source is [ReviewText]
    here, since the record already takes the name. *)
Record Review : Type := mkReview {
  ID : Z;
  Name : string;
  ReviewText : string;
  Rating : Z
}.

Definition withID (r : Review) (id : Z) : Review :=
  {| ID := id; Name := Name r; ReviewText := ReviewText r; Rating := Rating r |}.

(** A Go slice value: [nil] or a (possibly empty) sequence. *)
Definition slice (A : Type) : Type := option (list A).

Definition append {A : Type} (s : slice A) (x : A) : slice A :=
  match s with
  | None => Some [x]
  | Some l => Some (l ++ [x])
  end.

(** Go [error] values met in [main.go]: what the SQL driver returns, and
    what [fmt.Errorf] builds. *)
Inductive error : Type :=
| DriverError (msg : string)
| Errorf (msg : string).

Definition errorString (e : error) : string :=
  match e with
  | DriverError msg => msg
  | Errorf msg => msg
  end.

(** ** JSON values, as [encoding/json] writes them *)

#[warnings="-register-all"]
Inductive json : Type :=
| JNull
| JBool (b : bool)
| JNum (n : Z)
| JStr (s : string)
| JArr (items : list json)
| JObj (fields : list (string * json)).

(** A [Review] is written with its four tagged fields, in declaration order. *)
Definition encodeReview (r : Review) : json :=
  JObj [("id", JNum (ID r)); ("name", JStr (Name r));
        ("review", JStr (ReviewText r)); ("rating", JNum (Rating r))].

(** A nil slice is written as [null], any other slice as an array. *)
Definition encodeReviews (s : slice Review) : json :=
  match s with
  | None => JNull
  | Some l => JArr (map encodeReview l)
  end.

(** ** The store: SQLite behind [database/sql] *)

Module Sqlite.

(** Largest rowid of a table. *)
Definition MAX_ROWID : Z := 2 ^ 63 - 1.

(** The table [reviews] and its entry in [sqlite_sequence], which an
    [AUTOINCREMENT] key maintains: the largest rowid the table ever held
    (0 for a table that never held a row). *)
Record Table : Type := mkTable {
  rows : list Review;
  seq : Z
}.

Definition empty : Table := {| rows := []; seq := 0 |}.

(** Condition of the driver while a statement runs: [Down msg] makes the
    call return an error (file unreadable, disk failure, ...). *)
Inductive Driver : Type :=
| Up
| Down (msg : string).

(** [SELECT MAX(id) FROM reviews]: NULL on an empty table. *)
Fixpoint maxID (rs : list Review) : option Z :=
  match rs with
  | [] => None
  | r :: rs' =>
      match maxID rs' with
      | None => Some (ID r)
      | Some m => Some (Z.max (ID r) m)
      end
  end.

(** The rowid an insert that names no id receives on an [AUTOINCREMENT]
    table: one more than the largest rowid present and than the recorded
    sequence; none when either has reached [MAX_ROWID]. *)
Definition newRowid (t : Table) : option Z :=
  let v :=
    match maxID (rows t) with
    | None => Some 1
    | Some m => if MAX_ROWID <=? m then None else Some (m + 1)
    end in
  match v with
  | None => None
  | Some v => if seq t =? MAX_ROWID then None else Some (Z.max v (seq t + 1))
  end.

Definition SQLITE_FULL : error := DriverError "database or disk is full".

(** [INSERT INTO reviews (name, review, rating) VALUES (?, ?, ?)].
    A statement that fails leaves the table as it was. *)
Definition insert (d : Driver) (t : Table) (name review : string) (rating : Z)
  : Table * option error :=
  match d with
  | Down msg => (t, Some (DriverError msg))
  | Up =>
      match newRowid t with
      | None => (t, Some SQLITE_FULL)
      | Some i =>
          ({| rows := rows t ++ [mkReview i name review rating]; seq := i |},
           None)
      end
  end.

Definition keeps (id : Z) (r : Review) : bool := negb (ID r =? id).

(** [DELETE FROM reviews WHERE id = ?], with the number of rows affected. *)
Definition delete (d : Driver) (t : Table) (id : Z)
  : Table * (Z + error) :=
  match d with
  | Down msg => (t, inr (DriverError msg))
  | Up =>
      let kept := filter (keeps id) (rows t) in
      ({| rows := kept; seq := seq t |},
       inl (Z.of_nat (List.length (rows t)) - Z.of_nat (List.length kept)))
  end.

(** [SELECT id, name, review, rating FROM reviews]. *)
Definition selectAll (d : Driver) (t : Table) : list Review + error :=
  match d with
  | Down msg => inr (DriverError msg)
  | Up => inl (rows t)
  end.

(** [SELECT MAX(id) FROM reviews], scanned into a [sql.NullInt64]. *)
Definition selectMaxID (d : Driver) (t : Table) : option Z + error :=
  match d with
  | Down msg => inr (DriverError msg)
  | Up => inl (maxID (rows t))
  end.

End Sqlite.
Import Sqlite.

(** ** Process state and the monad of handlers *)

Inductive Stmt : Type :=
| CreateTable
| SelectMaxID
| Insert (name review : string) (rating : Z)
| Delete (id : Z)
| SelectAll.

Inductive Event : Type :=
| Lock
| Unlock
| Exec (q : Stmt).

(** The package-level variables [db] and [idCounter], and the trace of what
    the process did to the mutex and the database. *)
Record Process : Type := mkProcess {
  db : Table;
  idCounter : Z;
  trace : list Event
}.

(** A computation reads the driver's condition and threads the process. *)
Definition M (A : Type) : Type := Driver -> Process -> A * Process.

Definition ret {A : Type} (a : A) : M A := fun _ p => (a, p).

Definition bind {A B : Type} (m : M A) (k : A -> M B) : M B :=
  fun d p => k (fst (m d p)) d (snd (m d p)).

Declare Scope go_scope.
Delimit Scope go_scope with go.
Notation "x <- m ;; k" := (bind m (fun x => k))
  (at level 61, m at next level, right associativity) : go_scope.
Notation "m ;; k" := (bind m (fun _ => k))
  (at level 61, right associativity) : go_scope.
Open Scope go_scope.

Definition emit (e : Event) : M unit :=
  fun _ p => (tt, {| db := db p; idCounter := idCounter p; trace := trace p ++ [e] |}).

(** [mutex.Lock(); defer mutex.Unlock()] around the rest of a handler. *)
Definition withLock {A : Type} (m : M A) : M A :=
  emit Lock ;; a <- m ;; emit Unlock ;; ret a.

(** [idCounter++], giving the new value. *)
Definition incrIDCounter : M Z :=
  fun _ p =>
    let c := wrapInt (idCounter p + 1) in
    (c, {| db := db p; idCounter := c; trace := trace p |}).

Definition setIDCounter (c : Z) : M unit :=
  fun _ p => (tt, {| db := db p; idCounter := c; trace := trace p |}).

(** ** Database functions of [main.go] *)

(** [CREATE TABLE IF NOT EXISTS]: a table that exists is left alone, and a
    table that does not yet exist has the contents of [Sqlite.empty]. *)
Definition initializeDatabase : M (option error) :=
  emit (Exec CreateTable) ;;
  fun d p =>
    match d with
    | Down msg => (Some (DriverError msg), p)
    | Up => (None, p)
    end.

(** [loadIDCounter]; [false] stands for the [log.Fatalf] exit.  The
    conversion [int(maxID.Int64)] keeps the value: rowids are 64-bit. *)
Definition loadIDCounter : M bool :=
  emit (Exec SelectMaxID) ;;
  fun d p =>
    match selectMaxID d (db p) with
    | inr _ => (false, p)
    | inl None => (true, p)
    | inl (Some m) => (true, snd (setIDCounter m d p))
    end.

(** [saveReview]: the statement binds the name, the text and the rating of
    the review, and no id. *)
Definition saveReview (review : Review) : M (option error) :=
  emit (Exec (Insert (Name review) (ReviewText review) (Rating review))) ;;
  fun d p =>
    let r := insert d (db p) (Name review) (ReviewText review) (Rating review) in
    (snd r, {| db := fst r; idCounter := idCounter p; trace := trace p |}).

(** [deleteReview]. *)
Definition deleteReview (id : Z) : M (option error) :=
  emit (Exec (Delete id)) ;;
  fun d p =>
    let r := delete d (db p) id in
    let p' := {| db := fst r; idCounter := idCounter p; trace := trace p |} in
    match snd r with
    | inr err => (Some err, p')
    | inl rowsAffected =>
        if rowsAffected =? 0
        then (Some (Errorf ("no review found with id " ++ formatInt id)%string), p')
        else (None, p')
    end.

(** [loadReviews]: the loop appends each scanned row to a slice that starts
    out nil. *)
Definition scanRows (rs : list Review) : slice Review :=
  fold_left (fun reviews review => append reviews review) rs None.

Definition loadReviews : M (slice Review * option error) :=
  emit (Exec SelectAll) ;;
  fun d p =>
    match selectAll d (db p) with
    | inr err => ((None, Some err), p)
    | inl rs => ((scanRows rs, None), p)
    end.

(** ** HTTP *)

(** The methods the handlers tell apart; [MethodPut] stands for every
    method they do not route. *)
Inductive Method : Type :=
| MethodGet
| MethodPost
| MethodDelete
| MethodOptions
| MethodPut.

(** A request: its method, and what [json.NewDecoder(r.Body).Decode] makes
    of its body for each of the two targets the handlers decode into
    ([None] when [Decode] returns an error). *)
Record Request : Type := mkRequest {
  method : Method;
  decodeReview : option Review;
  decodeID : option Z
}.

(** What a handler writes to the body: nothing, one line of plain text, or
    an encoded JSON value. *)
Inductive Payload : Type :=
| NoBody
| Line (s : string)
| Json (j : json).

Record Response : Type := mkResponse {
  Status : Z;
  ContentType : string;
  Body : Payload
}.

Definition StatusOK : Z := 200.
Definition StatusBadRequest : Z := 400.
Definition StatusMethodNotAllowed : Z := 405.
Definition StatusInternalServerError : Z := 500.

(** [http.Error]: the message as a line of plain text, under the status. *)
Definition httpError (msg : string) (code : Z) : Response :=
  {| Status := code; ContentType := "text/plain; charset=utf-8"; Body := Line msg |}.

(** [json.NewEncoder(w).Encode] on a writer whose status was not set. *)
Definition encode (j : json) : Response :=
  {| Status := StatusOK; ContentType := "application/json"; Body := Json j |}.

(** [respondWithJSON]; marshalling the maps it is given cannot fail. *)
Definition respondWithJSON (status : Z) (payload : json) : Response :=
  {| Status := status; ContentType := "application/json"; Body := Json payload |}.

(** [handlePostReview]. *)
Definition handlePostReview (r : Request) : M Response :=
  match decodeReview r with
  | None => ret (httpError "Invalid request payload" StatusBadRequest)
  | Some newReview =>
      if (Rating newReview <? 1) || (Rating newReview >? 5)
      then ret (httpError "Invalid rating value. Must be between 1 and 5."
                  StatusBadRequest)
      else
        withLock (
          c <- incrIDCounter ;;
          let newReview := withID newReview c in
          err <- saveReview newReview ;;
          match err with
          | Some _ => ret (httpError "Failed to save review" StatusInternalServerError)
          | None =>
              ret (encode (JObj [("id", JNum (ID newReview)); ("success", JBool true)]))
          end)
  end.

(** [handleGetReviews]. *)
Definition handleGetReviews (r : Request) : M Response :=
  withLock (
    res <- loadReviews ;;
    match snd res with
    | Some _ => ret (httpError "Failed to load reviews" StatusInternalServerError)
    | None => ret (encode (encodeReviews (fst res)))
    end).

(** [reviewsHandler]. *)
Definition reviewsHandler (r : Request) : M Response :=
  match method r with
  | MethodPost => handlePostReview r
  | MethodGet => handleGetReviews r
  | _ => ret (httpError "Method not allowed" StatusMethodNotAllowed)
  end.

(** [deleteReviewHandler]. *)
Definition deleteReviewHandler (r : Request) : M Response :=
  match method r with
  | MethodDelete =>
      match decodeID r with
      | None =>
          ret (respondWithJSON StatusBadRequest
                 (JObj [("error", JStr "Invalid request payload")]))
      | Some id =>
          withLock (
            err <- deleteReview id ;;
            match err with
            | Some e =>
                ret (respondWithJSON StatusInternalServerError
                       (JObj [("error",
                               JStr ("Failed to delete review: " ++ errorString e)%string)]))
            | None => ret (respondWithJSON StatusOK (JObj [("success", JBool true)]))
            end)
      end
  | _ =>
      ret (respondWithJSON StatusMethodNotAllowed
             (JObj [("error", JStr "Method not allowed")]))
  end.

(** [withCORS]: a pre-flight request is answered without calling the
    handler.  The three headers it sets on every response are the same for
    all requests and are left out of [Response]. *)
Definition withCORS (next : Request -> M Response) (r : Request) : M Response :=
  match method r with
  | MethodOptions => ret {| Status := StatusOK; ContentType := ""; Body := NoBody |}
  | _ => next r
  end.

(** The two routes registered in [main]. *)
Inductive Path : Type :=
| PathReviews
| PathDeleteReview.

Definition serve (path : Path) : Request -> M Response :=
  match path with
  | PathReviews => withCORS reviewsHandler
  | PathDeleteReview => withCORS deleteReviewHandler
  end.

(** ** Process lifetimes *)

(** [main] up to the point where the server listens: [None] is the
    [log.Fatalf] exit.  The process starts on the table found in the file,
    with [idCounter] at its initial value 0. *)
Definition main (d : Driver) (file : Table) : option Process :=
  let p0 := {| db := file; idCounter := 0; trace := [] |} in
  let r1 := initializeDatabase d p0 in
  match fst r1 with
  | Some _ => None
  | None =>
      let r2 := loadIDCounter d (snd r1) in
      if fst r2 then Some (snd r2) else None
  end.

(** One incoming request, with the route it hits and the condition of the
    driver while it is served. *)
Record Call : Type := mkCall {
  path : Path;
  request : Request;
  driver : Driver
}.

Definition step (c : Call) (p : Process) : Response * Process :=
  serve (path c) (request c) (driver c) p.

(** The responses of a sequence of requests served one after another. *)
Fixpoint run (cs : list Call) (p : Process) : list Response * Process :=
  match cs with
  | [] => ([], p)
  | c :: cs' =>
      let r := step c p in
      let rs := run cs' (snd r) in
      (fst r :: fst rs, snd rs)
  end.

(** Requests as a client forms them. *)
Definition post (rv : Review) : Request :=
  {| method := MethodPost; decodeReview := Some rv; decodeID := None |}.

Definition get : Request :=
  {| method := MethodGet; decodeReview := None; decodeID := None |}.

Definition del (id : Z) : Request :=
  {| method := MethodDelete; decodeReview := None; decodeID := Some id |}.

Definition create (rv : Review) : Call :=
  {| path := PathReviews; request := post rv; driver := Up |}.

Definition list_ : Call :=
  {| path := PathReviews; request := get; driver := Up |}.

Definition remove (id : Z) : Call :=
  {| path := PathDeleteReview; request := del id; driver := Up |}.

(** The id a create response carries, if the response reports success. *)
Definition createdID (resp : Response) : option Z :=
  match Body resp with
  | Json (JObj [(k1, JNum n); (k2, JBool true)]) =>
      if (Status resp =? StatusOK) && (k1 =? "id")%string && (k2 =? "success")%string
      then Some n else None
  | _ => None
  end.

Definition returnedIDs (rs : list Response) : list Z :=
  flat_map (fun r => match createdID r with Some i => [i] | None => [] end) rs.

(** A process lifetime on the table found in the file: start up, serve the
    calls, and leave the table behind. *)
Definition lifetime (file : Table) (cs : list Call) : option (list Response * Table) :=
  match main Up file with
  | None => None
  | Some p => Some (fst (run cs p), db (snd (run cs p)))
  end.

(** Requests that [handlePostReview] turns away. *)
Definition malformed (r : Request) : Prop := decodeReview r = None.

Definition ratingOutOfRange (r : Request) : Prop :=
  exists rv, decodeReview r = Some rv /\ (Rating rv < 1 \/ 5 < Rating rv).

(** A call that removes the row [i]. *)
Definition deletes (i : Z) (c : Call) : Prop :=
  path c = PathDeleteReview /\ method (request c) = MethodDelete /\
  decodeID (request c) = Some i /\ driver c = Up.


(** Rowids are 64-bit integers. *)
Definition rowidsValid (t : Table) : Prop :=
  Forall (fun r => inRange (ID r)) (rows t).

(** Sample reviews. *)
Definition ann : Review := mkReview 0 "Ann" "Great" 5.
Definition bob : Review := mkReview 0 "Bob" "Fine" 4.

(** ** Predicates on tables, processes and calls *)

(** Every stored rating lies in 1..5. *)
Definition ratingsValid (t : Table) : Prop :=
  Forall (fun r => 1 <= Rating r <= 5) (rows t).

(** The ids of the table are pairwise distinct and none is above the
    recorded sequence. *)
Definition keyed (t : Table) : Prop :=
  NoDup (map ID (rows t)) /\ Forall (fun r => ID r <= seq t) (rows t).

(** The counter of the process stands at the sequence of its table. *)
Definition inSync (p : Process) : Prop :=
  idCounter p = seq (db p)
  /\ 0 <= seq (db p)
  /\ Forall (fun r => ID r <= seq (db p)) (rows (db p)).

(** A call that reaches the increment of [handlePostReview]: a POST on the
    reviews route whose body decodes with a rating from 1 to 5. *)
Definition validated (c : Call) : bool :=
  match path c, method (request c), decodeReview (request c) with
  | PathReviews, MethodPost, Some rv => (1 <=? Rating rv) && (Rating rv <=? 5)
  | _, _, _ => false
  end.

(** The events of one critical section around the statement [q]. *)
Definition critical (q : Stmt) : list Event := [Lock; Exec q; Unlock].

(** The statement a call makes its handler execute: the select of a GET and
    the insert of a POST that passed both checks on the reviews route, the
    delete of a DELETE whose body decoded on the delete route. *)
Definition statement (c : Call) : option Stmt :=
  match path c, method (request c) with
  | PathReviews, MethodGet => Some SelectAll
  | PathReviews, MethodPost =>
      match decodeReview (request c) with
      | Some rv =>
          if validated c then Some (Insert (Name rv) (ReviewText rv) (Rating rv))
          else None
      | None => None
      end
  | PathDeleteReview, MethodDelete => option_map Delete (decodeID (request c))
  | _, _ => None
  end.

Definition sections (c : Call) : list Event :=
  match statement c with
  | Some q => critical q
  | None => []
  end.


(** * Properties *)

(** ** Integers *)

Lemma wrapInt_inRange z : inRange z -> wrapInt z = z.
Proof.
  unfold inRange, wrapInt, minInt, maxInt. intros H.
  rewrite Z.mod_small; lia.
Qed.

(** Past [maxInt] an [int] continues at [minInt]. *)
Lemma wrapInt_maxInt : wrapInt (maxInt + 1) = minInt.
Proof. reflexivity. Qed.

Lemma wrapInt_succ c : inRange c -> c + 1 <= maxInt -> wrapInt (c + 1) = c + 1.
Proof.
  intros [Hlo Hhi] H. apply wrapInt_inRange. unfold inRange in *. lia.
Qed.

(** ** The table *)

Lemma maxID_empty rs : maxID rs = None -> rs = [].
Proof.
  destruct rs as [|r rs]; [reflexivity|].
  simpl. destruct (maxID rs); discriminate.
Qed.

Lemma maxID_upper rs m : maxID rs = Some m -> forall r, In r rs -> ID r <= m.
Proof.
  revert m. induction rs as [|a rs IH]; intros m Hm r Hin.
  - destruct Hin.
  - simpl in Hm. destruct (maxID rs) as [m'|] eqn:E.
    + injection Hm as <-. destruct Hin as [->|Hin].
      * lia.
      * specialize (IH m' eq_refl r Hin). lia.
    + injection Hm as <-. apply maxID_empty in E. subst rs.
      destruct Hin as [->|[]]. lia.
Qed.

Lemma maxID_attained rs m : maxID rs = Some m -> exists r, In r rs /\ ID r = m.
Proof.
  revert m. induction rs as [|a rs IH]; intros m Hm.
  - discriminate.
  - simpl in Hm. destruct (maxID rs) as [m'|] eqn:E.
    + injection Hm as <-. destruct (Z.max_spec (ID a) m') as [[_ ->]|[_ ->]].
      * destruct (IH m' eq_refl) as (r & Hin & Hr). exists r. split; [right|]; assumption.
      * exists a. split; [left|]; reflexivity.
    + injection Hm as <-. exists a. split; [left|]; reflexivity.
Qed.

(** A rowid chosen by the engine is above every rowid in the table and above
    the recorded sequence; none is chosen once the table holds [MAX_ROWID]. *)
Lemma newRowid_spec t i :
  newRowid t = Some i ->
  (forall r, In r (rows t) -> ID r < i) /\ seq t < i
  /\ (forall m, maxID (rows t) = Some m -> m < MAX_ROWID).
Proof.
  unfold newRowid. intros H.
  destruct (maxID (rows t)) as [m|] eqn:E.
  - destruct (Z.leb_spec MAX_ROWID m) as [Hle|Hlt]; [discriminate|].
    destruct (Z.eqb_spec (seq t) MAX_ROWID) as [Heq|Hne]; [discriminate|].
    injection H as <-. repeat split; try lia.
    + intros r Hin. pose proof (maxID_upper _ _ E r Hin). lia.
    + intros m' [= <-]. exact Hlt.
  - apply maxID_empty in E.
    destruct (Z.eqb_spec (seq t) MAX_ROWID) as [Heq|Hne]; [discriminate|].
    injection H as <-. rewrite E. repeat split; try lia.
    + intros r [].
    + intros m' Hm. discriminate.
Qed.

Lemma insert_spec d t name review rating t' :
  insert d t name review rating = (t', None) ->
  exists i, d = Up /\ newRowid t = Some i
            /\ t' = {| rows := rows t ++ [mkReview i name review rating]; seq := i |}.
Proof.
  unfold insert. destruct d as [|msg]; [|discriminate].
  destruct (newRowid t) as [i|]; [|discriminate].
  intros [= <-]. exists i. repeat split.
Qed.

Lemma insert_failed d t name review rating :
  snd (insert d t name review rating) <> None ->
  fst (insert d t name review rating) = t.
Proof.
  unfold insert. destruct d as [|msg]; [|reflexivity].
  destruct (newRowid t); simpl; [congruence|reflexivity].
Qed.

(** While the driver is up and the rowids are not exhausted, an insert is
    stored. *)
Lemma insert_succeeds t name review rating :
  seq t < MAX_ROWID ->
  (forall r, In r (rows t) -> ID r < MAX_ROWID) ->
  snd (insert Up t name review rating) = None.
Proof.
  intros Hseq Hrows. unfold insert, newRowid.
  destruct (maxID (rows t)) as [m|] eqn:E.
  - destruct (maxID_attained _ _ E) as (r & Hin & Hr).
    specialize (Hrows r Hin).
    destruct (Z.leb_spec MAX_ROWID m); [lia|].
    destruct (Z.eqb_spec (seq t) MAX_ROWID); [lia|reflexivity].
  - destruct (Z.eqb_spec (seq t) MAX_ROWID); [lia|reflexivity].
Qed.

Lemma filter_keeps_length id rs :
  (forall r, In r rs -> ID r <> id) -> filter (keeps id) rs = rs.
Proof.
  induction rs as [|a rs IH]; intros H; [reflexivity|].
  simpl. unfold keeps at 1.
  destruct (Z.eqb_spec (ID a) id) as [Heq|Hne].
  - exfalso. apply (H a); [left; reflexivity|exact Heq].
  - simpl. f_equal. apply IH. intros r Hin. apply H. right. exact Hin.
Qed.

Lemma filter_keeps_In id rs r :
  In r (filter (keeps id) rs) <-> In r rs /\ ID r <> id.
Proof.
  rewrite filter_In. unfold keeps.
  destruct (Z.eqb_spec (ID r) id); simpl; intuition congruence.
Qed.

(** The loop of [loadReviews] leaves the slice nil exactly when there is no
    row to scan. *)
Lemma scanRows_spec rs :
  scanRows rs = match rs with [] => None | _ :: _ => Some rs end.
Proof.
  assert (H : forall (rs l : list Review),
             fold_left (fun s x => append s x) rs (Some l) = Some (l ++ rs)).
  { clear rs. induction rs as [|a rs IH]; intros l; simpl.
    - rewrite app_nil_r. reflexivity.
    - rewrite IH, <- app_assoc. reflexivity. }
  destruct rs as [|a rs]; [reflexivity|].
  unfold scanRows. simpl. apply H.
Qed.

(** ** What each handler computes *)

Lemma post_malformed r d p :
  malformed r ->
  handlePostReview r d p = (httpError "Invalid request payload" StatusBadRequest, p).
Proof. unfold malformed, handlePostReview. intros ->. reflexivity. Qed.

Lemma post_out_of_range r d p :
  ratingOutOfRange r ->
  handlePostReview r d p =
  (httpError "Invalid rating value. Must be between 1 and 5." StatusBadRequest, p).
Proof.
  unfold handlePostReview. intros (rv & -> & H).
  replace ((Rating rv <? 1) || (Rating rv >? 5)) with true; [reflexivity|].
  symmetry. apply orb_true_iff. rewrite Z.ltb_lt, Z.gtb_ltb, Z.ltb_lt. exact H.
Qed.

(** The process a create that passed validation leaves behind, and its
    response, for each outcome of the insert. *)
Definition posted (rv : Review) (d : Driver) (p : Process) : Response * Process :=
  let c := wrapInt (idCounter p + 1) in
  let ins := insert d (db p) (Name rv) (ReviewText rv) (Rating rv) in
  let p' := {| db := fst ins; idCounter := c;
               trace := trace p ++ [Lock; Exec (Insert (Name rv) (ReviewText rv) (Rating rv));
                                    Unlock] |} in
  match snd ins with
  | Some _ => (httpError "Failed to save review" StatusInternalServerError, p')
  | None => (encode (JObj [("id", JNum c); ("success", JBool true)]), p')
  end.

Lemma post_accepted r rv d p :
  decodeReview r = Some rv -> 1 <= Rating rv <= 5 ->
  handlePostReview r d p = posted rv d p.
Proof.
  unfold handlePostReview, posted. intros -> H.
  replace ((Rating rv <? 1) || (Rating rv >? 5)) with false.
  2:{ symmetry. apply orb_false_iff. rewrite Z.ltb_ge, Z.gtb_ltb, Z.ltb_ge. lia. }
  cbv [withLock bind emit incrIDCounter saveReview ret]. simpl.
  destruct (snd (insert d (db p) (Name rv) (ReviewText rv) (Rating rv)));
    simpl; rewrite <- ?app_assoc; reflexivity.
Qed.

(** A request is turned away or passes validation. *)
Lemma post_cases r :
  malformed r \/ ratingOutOfRange r \/
  exists rv, decodeReview r = Some rv /\ 1 <= Rating rv <= 5.
Proof.
  unfold malformed, ratingOutOfRange.
  destruct (decodeReview r) as [rv|]; [|left; reflexivity].
  right. destruct (Z_lt_dec (Rating rv) 1); [left; exists rv; split; [reflexivity|lia]|].
  destruct (Z_lt_dec 5 (Rating rv)); [left; exists rv; split; [reflexivity|lia]|].
  right. exists rv. split; [reflexivity|lia].
Qed.

Lemma get_spec r d p :
  handleGetReviews r d p =
  (match selectAll d (db p) with
   | inr _ => httpError "Failed to load reviews" StatusInternalServerError
   | inl rs => encode (encodeReviews (scanRows rs))
   end,
   {| db := db p; idCounter := idCounter p;
      trace := trace p ++ [Lock; Exec SelectAll; Unlock] |}).
Proof.
  cbv [handleGetReviews withLock bind emit loadReviews ret]. simpl.
  destruct (selectAll d (db p)); simpl; rewrite <- ?app_assoc; reflexivity.
Qed.

Lemma delete_spec id d p :
  deleteReview id d p =
  (match snd (delete d (db p) id) with
   | inr err => Some err
   | inl n => if n =? 0 then Some (Errorf ("no review found with id " ++ formatInt id)%string)
              else None
   end,
   {| db := fst (delete d (db p) id); idCounter := idCounter p;
      trace := trace p ++ [Exec (Delete id)] |}).
Proof.
  cbv [deleteReview bind emit]. simpl.
  destruct (snd (delete d (db p) id)) as [n|err]; [|reflexivity].
  destruct (n =? 0); reflexivity.
Qed.

Lemma delete_handler_spec r id d p :
  method r = MethodDelete -> decodeID r = Some id ->
  deleteReviewHandler r d p =
  (match snd (delete d (db p) id) with
   | inr err =>
       respondWithJSON StatusInternalServerError
         (JObj [("error", JStr ("Failed to delete review: " ++ errorString err)%string)])
   | inl n =>
       if n =? 0
       then respondWithJSON StatusInternalServerError
              (JObj [("error",
                      JStr ("Failed to delete review: " ++
                            ("no review found with id " ++ formatInt id))%string)])
       else respondWithJSON StatusOK (JObj [("success", JBool true)])
   end,
   {| db := fst (delete d (db p) id); idCounter := idCounter p;
      trace := trace p ++ [Lock; Exec (Delete id); Unlock] |}).
Proof.
  intros Hm Hid. unfold deleteReviewHandler. rewrite Hm, Hid.
  cbv [withLock bind emit deleteReview ret]. simpl.
  destruct (snd (delete d (db p) id)) as [n|err]; simpl.
  - destruct (n =? 0); simpl; rewrite <- ?app_assoc; reflexivity.
  - rewrite <- ?app_assoc; reflexivity.
Qed.

(** Rows affected by a delete: none exactly when no row carries the id. *)
Lemma delete_none id t :
  (forall r, In r (rows t) -> ID r <> id) -> delete Up t id = (t, inl 0).
Proof.
  intros H. unfold delete. rewrite (filter_keeps_length id (rows t) H).
  destruct t; simpl. f_equal. f_equal. lia.
Qed.

Lemma delete_some id t r :
  In r (rows t) -> ID r = id ->
  exists n, snd (delete Up t id) = inl n /\ 0 < n.
Proof.
  intros Hin Hid. unfold delete. simpl. eexists. split; [reflexivity|].
  assert (H : forall rs, In r rs ->
              (List.length (filter (keeps id) rs) < List.length rs)%nat).
  { induction rs as [|a rs IH]; intros Ha; [destruct Ha|].
    simpl. destruct Ha as [->|Ha].
    - unfold keeps at 1. rewrite Hid, Z.eqb_refl. simpl.
      pose proof (filter_length_le (keeps id) rs). lia.
    - specialize (IH Ha). destruct (keeps id a); simpl; lia. }
  specialize (H _ Hin). lia.
Qed.

(** Start-up reads the table and never writes it. *)
Lemma main_spec d file p :
  main d file = Some p ->
  d = Up /\ db p = file
  /\ idCounter p = match maxID (rows file) with Some m => m | None => 0 end
  /\ trace p = [Exec CreateTable; Exec SelectMaxID].
Proof.
  unfold main. cbv [initializeDatabase loadIDCounter bind emit setIDCounter]. simpl.
  destruct d as [|msg]; simpl; [|discriminate].
  destruct (maxID (rows file)); simpl; intros [= <-]; repeat split.
Qed.

Lemma main_Up file :
  main Up file =
  Some {| db := file;
          idCounter := match maxID (rows file) with Some m => m | None => 0 end;
          trace := [Exec CreateTable; Exec SelectMaxID] |}.
Proof.
  unfold main. cbv [initializeDatabase loadIDCounter bind emit setIDCounter]. simpl.
  destruct (maxID (rows file)); reflexivity.
Qed.

(** ** One request *)

Lemma createdID_httpError msg code : createdID (httpError msg code) = None.
Proof. reflexivity. Qed.

Lemma createdID_list s : createdID (encode (encodeReviews s)) = None.
Proof. destruct s; reflexivity. Qed.

(** A request leaves the counter alone and returns no id, or advances the
    counter by one and returns, if any, the new value. *)
Lemma step_counter c p :
  (idCounter (snd (step c p)) = idCounter p /\ createdID (fst (step c p)) = None)
  \/ (idCounter (snd (step c p)) = wrapInt (idCounter p + 1)
      /\ (createdID (fst (step c p)) = None
          \/ createdID (fst (step c p)) = Some (wrapInt (idCounter p + 1)))).
Proof.
  destruct c as [pa r d]. unfold step. simpl.
  destruct pa; unfold serve, withCORS.
  - unfold reviewsHandler.
    destruct (method r) eqn:Hm; try (left; split; reflexivity).
    + rewrite get_spec. simpl. left. split; [reflexivity|].
      destruct (selectAll d (db p)); [apply createdID_list|reflexivity].
    + destruct (post_cases r) as [H|[H|(rv & Hrv & Hr)]].
      * rewrite (post_malformed r d p H). left. split; reflexivity.
      * rewrite (post_out_of_range r d p H). left. split; reflexivity.
      * rewrite (post_accepted r rv d p Hrv Hr). unfold posted. right.
        destruct (snd (insert d (db p) (Name rv) (ReviewText rv) (Rating rv)));
          simpl; split; auto.
  - destruct (method r) eqn:Hm;
      try (left; unfold deleteReviewHandler; rewrite ?Hm; split; reflexivity).
    destruct (decodeID r) as [id|] eqn:Hid.
    + rewrite (delete_handler_spec r id d p Hm Hid). simpl. left. split; [reflexivity|].
      destruct (snd (delete d (db p) id)) as [n|e]; [|reflexivity].
      destruct (n =? 0); reflexivity.
    + left. unfold deleteReviewHandler. rewrite Hm, Hid. split; reflexivity.
Qed.


(** A create answers 200 only when the request passed validation and the
    engine stored the row; the id in the body is the new counter value. *)
Lemma post_ok_inv r d p :
  Status (fst (handlePostReview r d p)) = StatusOK ->
  exists rv i,
    decodeReview r = Some rv /\ 1 <= Rating rv <= 5 /\ d = Up
    /\ newRowid (db p) = Some i
    /\ fst (handlePostReview r d p) =
       encode (JObj [("id", JNum (wrapInt (idCounter p + 1))); ("success", JBool true)])
    /\ db (snd (handlePostReview r d p)) =
       {| rows := rows (db p) ++ [mkReview i (Name rv) (ReviewText rv) (Rating rv)];
          seq := i |}
    /\ idCounter (snd (handlePostReview r d p)) = wrapInt (idCounter p + 1).
Proof.
  destruct (post_cases r) as [H|[H|(rv & Hrv & Hr)]].
  - rewrite (post_malformed r d p H). simpl. discriminate.
  - rewrite (post_out_of_range r d p H). simpl. discriminate.
  - rewrite (post_accepted r rv d p Hrv Hr). unfold posted.
    destruct (insert d (db p) (Name rv) (ReviewText rv) (Rating rv))
      as [t' [e|]] eqn:E; simpl; [discriminate|].
    intros _. apply insert_spec in E. destruct E as (i & Hd & Hi & ->).
    exists rv, i. repeat split; try assumption; lia.
Qed.

Lemma createdID_status resp j : createdID resp = Some j -> Status resp = StatusOK.
Proof.
  unfold createdID.
  destruct (Body resp) as [| |body]; try discriminate.
  destruct body as [| | | | |fields]; try discriminate.
  destruct fields as [|[k1 v1] fields]; try discriminate.
  destruct v1; try discriminate.
  destruct fields as [|[k2 v2] fields]; try discriminate.
  destruct v2 as [|b| | | |]; try discriminate.
  destruct b; try discriminate.
  destruct fields; try discriminate.
  destruct (Z.eqb_spec (Status resp) StatusOK) as [E|E]; [intros _; exact E|discriminate].
Qed.

(** ** A sequence of requests *)

Lemma sorted_lt_NoDup l : StronglySorted Z.lt l -> NoDup l.
Proof.
  induction 1 as [|a l Hs IH Ha]; constructor; [|exact IH].
  intros Hin. rewrite Forall_forall in Ha. specialize (Ha a Hin). lia.
Qed.

(** While the counter stays within [int], the ids a run returns grow, and
    all of them lie above the counter the run started from. *)
Lemma run_ids cs : forall p,
  inRange (idCounter p) ->
  idCounter p + Z.of_nat (List.length cs) <= maxInt ->
  StronglySorted Z.lt (returnedIDs (fst (run cs p)))
  /\ Forall (fun j => idCounter p < j) (returnedIDs (fst (run cs p))).
Proof.
  induction cs as [|c cs IH]; intros p Hr Hb.
  - simpl. split; constructor.
  - cbn [run fst returnedIDs flat_map]. fold (returnedIDs (fst (run cs (snd (step c p))))).
    cbn [List.length] in Hb. rewrite Nat2Z.inj_succ in Hb.
    destruct (step_counter c p) as [[Hc Hid]|[Hc Hid]].
    + rewrite Hid. cbn [app].
      destruct (IH (snd (step c p))) as [Hs Hf]; rewrite ?Hc; try assumption; try lia.
      rewrite Hc in Hf. split; assumption.
    + assert (Hw : wrapInt (idCounter p + 1) = idCounter p + 1).
      { apply wrapInt_succ; [exact Hr|lia]. }
      rewrite Hw in Hc, Hid.
      destruct (IH (snd (step c p))) as [Hs Hf]; rewrite ?Hc.
      { destruct Hr. unfold inRange. lia. }
      { lia. }
      rewrite Hc in Hf.
      assert (Hf' : Forall (fun j => idCounter p < j)
                      (returnedIDs (fst (run cs (snd (step c p)))))).
      { eapply Forall_impl; [|exact Hf]. simpl. intros; lia. }
      destruct Hid as [Hid|Hid]; rewrite Hid; cbn [app].
      * split; assumption.
      * split.
        -- constructor; [exact Hs|]. exact Hf.
        -- constructor; [lia|exact Hf'].
Qed.

(** * Claims *)

(** C5.  Within one process, the ids that successful creates return are
    strictly increasing: each is greater than every id returned before it,
    so no two creates receive the same id.  The counter is a Go [int]; the
    statement covers every run that keeps it within the range of [int]. *)
Theorem create_ids_strictly_increase (cs : list Call) (p : Process) :
  inRange (idCounter p) ->
  idCounter p + Z.of_nat (List.length cs) <= maxInt ->
  StronglySorted Z.lt (returnedIDs (fst (run cs p)))
  /\ NoDup (returnedIDs (fst (run cs p)))
  /\ Forall (fun j => idCounter p < j) (returnedIDs (fst (run cs p))).
Proof.
  intros Hr Hb. destruct (run_ids cs p Hr Hb) as [Hs Hf].
  split; [exact Hs|]. split; [apply sorted_lt_NoDup; exact Hs|exact Hf].
Qed.

Lemma create_ids_strictly_increase_witness :
  let cs := [create ann; list_; create bob; remove 1; create ann] in
  let p := {| db := empty; idCounter := 0; trace := [] |} in
  returnedIDs (fst (run cs p)) = [1; 2; 3]
  /\ StronglySorted Z.lt (returnedIDs (fst (run cs p)))
  /\ NoDup (returnedIDs (fst (run cs p)))
  /\ Forall (fun j => idCounter p < j) (returnedIDs (fst (run cs p))).
Proof.
  split; [reflexivity|].
  apply create_ids_strictly_increase.
  - unfold inRange, minInt, maxInt. simpl. lia.
  - unfold maxInt. simpl. lia.
Defined.

(** C8.  When the insert fails for a create that passed validation, the
    handler answers 500, the table is as before, and the counter keeps the
    value it was advanced to: it is not rolled back.  Every later successful
    create of the process returns a strictly larger id, so the id the failed
    create consumed is never handed out (while the counter stays within the
    range of [int]). *)
Theorem failed_insert_consumes_id (r : Request) (rv : Review) (d : Driver) (p : Process) :
  decodeReview r = Some rv ->
  1 <= Rating rv <= 5 ->
  snd (insert d (db p) (Name rv) (ReviewText rv) (Rating rv)) <> None ->
  inRange (idCounter p) ->
  let resp := fst (handlePostReview r d p) in
  let p' := snd (handlePostReview r d p) in
  Status resp = StatusInternalServerError
  /\ db p' = db p
  /\ idCounter p' = wrapInt (idCounter p + 1)
  /\ idCounter p' <> idCounter p
  /\ forall cs,
       idCounter p + 1 + Z.of_nat (List.length cs) <= maxInt ->
       idCounter p' = idCounter p + 1
       /\ Forall (fun j => idCounter p + 1 < j) (returnedIDs (fst (run cs p')))
       /\ ~ In (idCounter p + 1) (returnedIDs (fst (run cs p'))).
Proof.
  intros Hrv Hr Hfail Hrange. cbv zeta.
  rewrite (post_accepted r rv d p Hrv Hr). unfold posted.
  pose proof (insert_failed d (db p) (Name rv) (ReviewText rv) (Rating rv) Hfail) as Hdb.
  destruct (snd (insert d (db p) (Name rv) (ReviewText rv) (Rating rv))) as [e|];
    [|congruence].
  cbn [fst snd db idCounter Status httpError].
  split; [reflexivity|]. split; [exact Hdb|]. split; [reflexivity|]. split.
  - unfold wrapInt. destruct Hrange as [Hlo Hhi]. unfold minInt, maxInt in *.
    destruct (Z.eq_dec (idCounter p) (2 ^ 63 - 1)) as [E|E].
    + rewrite E. vm_compute. discriminate.
    + rewrite Z.mod_small; lia.
  - intros cs Hb.
    assert (Hw : wrapInt (idCounter p + 1) = idCounter p + 1).
    { apply wrapInt_succ; [exact Hrange|lia]. }
    split; [exact Hw|].
    match goal with |- context [run cs ?q] => set (p' := q) end.
    assert (Hc : idCounter p' = idCounter p + 1) by exact Hw.
    assert (Hf : Forall (fun j => idCounter p + 1 < j) (returnedIDs (fst (run cs p')))).
    { destruct (run_ids cs p') as [_ Hf].
      - rewrite Hc. destruct Hrange. unfold inRange. lia.
      - rewrite Hc. lia.
      - rewrite Hc in Hf. exact Hf. }
    split; [exact Hf|].
    intros Hin. rewrite Forall_forall in Hf. specialize (Hf _ Hin). lia.
Qed.

Lemma failed_insert_consumes_id_witness :
  let p := {| db := empty; idCounter := 0; trace := [] |} in
  let d := Down "disk I/O error" in
  let p' := snd (handlePostReview (post ann) d p) in
  Status (fst (handlePostReview (post ann) d p)) = StatusInternalServerError
  /\ db p' = db p
  /\ idCounter p' = wrapInt (idCounter p + 1)
  /\ idCounter p' <> idCounter p
  /\ forall cs,
       idCounter p + 1 + Z.of_nat (List.length cs) <= maxInt ->
       idCounter p' = idCounter p + 1
       /\ Forall (fun j => idCounter p + 1 < j) (returnedIDs (fst (run cs p')))
       /\ ~ In (idCounter p + 1) (returnedIDs (fst (run cs p'))).
Proof.
  cbv zeta.
  apply (failed_insert_consumes_id (post ann) ann (Down "disk I/O error")
           {| db := empty; idCounter := 0; trace := [] |}).
  - reflexivity.
  - simpl. lia.
  - simpl. discriminate.
  - unfold inRange, minInt, maxInt. simpl. lia.
Defined.

(** C6.  A create whose body does not decode, or whose rating is below 1 or
    above 5, is answered 400 and the process is left exactly as it was: no
    lock taken, no statement executed, the table unchanged.  A create that
    decodes with a rating from 1 to 5 is not answered 400: the handler
    executes the insert with the submitted name, text and rating, and when
    the insert returns no error the answer is 200 and the table holds the
    new row, with those three values, after the old ones. *)
Theorem create_validation (r : Request) (d : Driver) (p : Process) :
  (malformed r \/ ratingOutOfRange r ->
     Status (fst (handlePostReview r d p)) = StatusBadRequest
     /\ snd (handlePostReview r d p) = p)
  /\ (forall rv, decodeReview r = Some rv -> 1 <= Rating rv <= 5 ->
        Status (fst (handlePostReview r d p)) <> StatusBadRequest
        /\ trace (snd (handlePostReview r d p)) =
           trace p ++ [Lock; Exec (Insert (Name rv) (ReviewText rv) (Rating rv)); Unlock]
        /\ (snd (insert d (db p) (Name rv) (ReviewText rv) (Rating rv)) = None ->
             Status (fst (handlePostReview r d p)) = StatusOK
             /\ exists i,
                  newRowid (db p) = Some i
                  /\ rows (db (snd (handlePostReview r d p))) =
                     rows (db p) ++ [mkReview i (Name rv) (ReviewText rv) (Rating rv)])).
Proof.
  split.
  - intros [H|H].
    + rewrite (post_malformed r d p H). split; reflexivity.
    + rewrite (post_out_of_range r d p H). split; reflexivity.
  - intros rv Hrv Hr. rewrite (post_accepted r rv d p Hrv Hr). unfold posted.
    destruct (insert d (db p) (Name rv) (ReviewText rv) (Rating rv))
      as [t' [e|]] eqn:E; cbn [fst snd Status trace db httpError encode].
    + split; [discriminate|]. split; [reflexivity|discriminate].
    + split; [discriminate|]. split; [reflexivity|]. intros _.
      split; [reflexivity|].
      apply insert_spec in E. destruct E as (i & _ & Hi & ->).
      exists i. split; [exact Hi|reflexivity].
Qed.

Lemma create_validation_witness :
  let p := {| db := empty; idCounter := 0; trace := [] |} in
  let rated k := post (mkReview 0 "Ann" "Great" k) in
  (Status (fst (handlePostReview (rated 0) Up p)) = StatusBadRequest
   /\ snd (handlePostReview (rated 0) Up p) = p)
  /\ (Status (fst (handlePostReview (rated 6) Up p)) = StatusBadRequest
      /\ snd (handlePostReview (rated 6) Up p) = p)
  /\ (Status (fst (handlePostReview (rated 1) Up p)) = StatusOK
      /\ exists i,
           newRowid (db p) = Some i
           /\ rows (db (snd (handlePostReview (rated 1) Up p))) =
              rows (db p) ++ [mkReview i "Ann" "Great" 1])
  /\ (Status (fst (handlePostReview (rated 5) Up p)) = StatusOK
      /\ exists i,
           newRowid (db p) = Some i
           /\ rows (db (snd (handlePostReview (rated 5) Up p))) =
              rows (db p) ++ [mkReview i "Ann" "Great" 5]).
Proof.
  cbv zeta.
  pose (p := {| db := empty; idCounter := 0; trace := [] |}).
  pose (rated := fun k => post (mkReview 0 "Ann" "Great" k)).
  assert (Hlow : forall k, k < 1 \/ 5 < k -> ratingOutOfRange (rated k)).
  { intros k Hk. exists (mkReview 0 "Ann" "Great" k). split; [reflexivity|exact Hk]. }
  split; [|split; [|split]].
  - apply (proj1 (create_validation (rated 0) Up p)). right. apply Hlow. lia.
  - apply (proj1 (create_validation (rated 6) Up p)). right. apply Hlow. lia.
  - apply (proj2 (create_validation (rated 1) Up p) (mkReview 0 "Ann" "Great" 1));
      [reflexivity|simpl; lia|reflexivity].
  - apply (proj2 (create_validation (rated 5) Up p) (mkReview 0 "Ann" "Great" 5));
      [reflexivity|simpl; lia|reflexivity].
Defined.

(** C10.  A create that is turned away (body not decodable, or rating
    outside 1..5) leaves [idCounter] as it was.  The counter moves only for
    a request that passed both checks, and then by exactly one increment. *)
Theorem rejected_create_keeps_counter (r : Request) (d : Driver) (p : Process) :
  (malformed r \/ ratingOutOfRange r ->
     idCounter (snd (handlePostReview r d p)) = idCounter p)
  /\ (idCounter (snd (handlePostReview r d p)) <> idCounter p ->
        exists rv, decodeReview r = Some rv /\ 1 <= Rating rv <= 5)
  /\ (forall rv, decodeReview r = Some rv -> 1 <= Rating rv <= 5 ->
        idCounter (snd (handlePostReview r d p)) = wrapInt (idCounter p + 1)).
Proof.
  split; [|split].
  - intros [H|H].
    + rewrite (post_malformed r d p H). reflexivity.
    + rewrite (post_out_of_range r d p H). reflexivity.
  - intros Hne. destruct (post_cases r) as [H|[H|H]]; [| |exact H]; exfalso; apply Hne.
    + rewrite (post_malformed r d p H). reflexivity.
    + rewrite (post_out_of_range r d p H). reflexivity.
  - intros rv Hrv Hr. rewrite (post_accepted r rv d p Hrv Hr). unfold posted.
    destruct (snd (insert d (db p) (Name rv) (ReviewText rv) (Rating rv))); reflexivity.
Qed.

Lemma rejected_create_keeps_counter_witness :
  let p := {| db := empty; idCounter := 7; trace := [] |} in
  let garbled := {| method := MethodPost; decodeReview := None; decodeID := None |} in
  idCounter (snd (handlePostReview garbled Up p)) = 7
  /\ idCounter (snd (handlePostReview (post (mkReview 0 "Ann" "Great" 6)) Up p)) = 7
  /\ idCounter (snd (handlePostReview (post ann) Up p)) = 8.
Proof.
  cbv zeta.
  pose (p := {| db := empty; idCounter := 7; trace := [] |}).
  split; [|split].
  - apply (proj1 (rejected_create_keeps_counter
                    {| method := MethodPost; decodeReview := None; decodeID := None |} Up p)).
    left. reflexivity.
  - apply (proj1 (rejected_create_keeps_counter (post (mkReview 0 "Ann" "Great" 6)) Up p)).
    right. exists (mkReview 0 "Ann" "Great" 6). split; [reflexivity|simpl; lia].
  - apply (proj2 (proj2 (rejected_create_keeps_counter (post ann) Up p)) ann);
      [reflexivity|simpl; lia].
Defined.

(** C7.  A delete for an id that no row carries affects zero rows.
    [deleteReview] then returns the error built by [fmt.Errorf], which names
    the id and is not the error a failing driver returns; the table is left
    as it was, and the handler answers 500 with the message
    "Failed to delete review: no review found with id <id>". *)
Theorem delete_missing_id (r : Request) (id : Z) (p : Process) :
  method r = MethodDelete ->
  decodeID r = Some id ->
  (forall row, In row (rows (db p)) -> ID row <> id) ->
  snd (delete Up (db p) id) = inl 0
  /\ fst (deleteReview id Up p) =
     Some (Errorf ("no review found with id " ++ formatInt id)%string)
  /\ (forall msg, fst (deleteReview id (Down msg) p) = Some (DriverError msg))
  /\ (forall msg, Errorf ("no review found with id " ++ formatInt id)%string
                  <> DriverError msg)
  /\ fst (deleteReviewHandler r Up p) =
     respondWithJSON StatusInternalServerError
       (JObj [("error",
               JStr ("Failed to delete review: " ++
                     ("no review found with id " ++ formatInt id))%string)])
  /\ db (snd (deleteReviewHandler r Up p)) = db p.
Proof.
  intros Hm Hid Hnone.
  pose proof (delete_none id (db p) Hnone) as Hdel.
  split; [rewrite Hdel; reflexivity|].
  split; [rewrite delete_spec, Hdel; reflexivity|].
  split; [intros msg; rewrite delete_spec; reflexivity|].
  split; [intros msg; discriminate|].
  rewrite (delete_handler_spec r id Up p Hm Hid), Hdel. split; reflexivity.
Qed.

Lemma delete_missing_id_witness :
  let p := {| db := {| rows := [mkReview 1 "Ann" "Great" 5]; seq := 1 |};
              idCounter := 1; trace := [] |} in
  fst (deleteReviewHandler (del 42) Up p) =
  respondWithJSON StatusInternalServerError
    (JObj [("error", JStr "Failed to delete review: no review found with id 42")])
  /\ fst (deleteReview 42 Up p) = Some (Errorf "no review found with id 42")
  /\ db (snd (deleteReviewHandler (del 42) Up p)) = db p.
Proof.
  cbv zeta.
  pose (p := {| db := {| rows := [mkReview 1 "Ann" "Great" 5]; seq := 1 |};
                idCounter := 1; trace := [] |}).
  assert (H : forall row, In row (rows (db p)) -> ID row <> 42).
  { intros row [<-|[]]. simpl. lia. }
  destruct (delete_missing_id (del 42) 42 p eq_refl eq_refl H)
    as (_ & He & _ & _ & Hr & Hdb).
  split; [exact Hr|]. split; [exact He|exact Hdb].
Defined.

(** ** Rows that stay *)







(** ** Restart *)

(** The property C4 states for the id after a restart: a process serves
    [cs] on the table of [file] and ends; the next process, started on the
    table it left, returns for its first create an id above every id the
    first one returned. *)
Definition continuesAbove (file : Table) (cs : list Call) (rv : Review) : Prop :=
  forall rs t p',
    lifetime file cs = Some (rs, t) ->
    main Up t = Some p' ->
    forall i j,
      In i (returnedIDs rs) ->
      createdID (fst (step (create rv) p')) = Some j ->
      i < j.

(** C4, as stated, fails: a process creates a review (id 1) and deletes it;
    after the restart the table is empty, the counter is reseeded to 0, and
    the next create returns id 1 again. *)
Lemma restart_reuses_deleted_id :
  ~ continuesAbove empty [create ann; remove 1] bob.
Proof.
  intros H.
  specialize (H _ _ _ eq_refl (main_Up _) 1 1).
  simpl in H. specialize (H (or_introl eq_refl) eq_refl). lia.
Qed.

(** C4, amended.  A restart leaves the table as it was, so every review
    present before is present after; start-up sets the counter to the
    largest id in the table, or leaves it 0 when the table is empty; and the
    id a successful create then returns is strictly greater than the id of
    every review in the table at the restart. *)
Theorem restart_reseeds_counter (d : Driver) (p p' : Process) :
  main d (db p) = Some p' ->
  rowidsValid (db p) ->
  db p' = db p
  /\ idCounter p' = match maxID (rows (db p)) with Some m => m | None => 0 end
  /\ (rows (db p) = [] -> idCounter p' = 0)
  /\ (forall row, In row (rows (db p)) -> ID row <= idCounter p')
  /\ forall r d' j,
       createdID (fst (handlePostReview r d' p')) = Some j ->
       j = idCounter p' + 1
       /\ forall row, In row (rows (db p)) -> ID row < j.
Proof.
  intros Hmain Hvalid.
  apply main_spec in Hmain. destruct Hmain as (_ & Hdb & Hc & _).
  split; [exact Hdb|]. split; [exact Hc|]. split; [|split].
  - intros E. rewrite Hc, E. reflexivity.
  - intros row Hin. rewrite Hc.
    destruct (maxID (rows (db p))) as [m|] eqn:E.
    + exact (maxID_upper _ _ E row Hin).
    + apply maxID_empty in E. rewrite E in Hin. destruct Hin.
  - intros r d' j Hj.
    pose proof (createdID_status _ _ Hj) as Hok.
    destruct (post_ok_inv r d' p' Hok) as (rv & i & _ & _ & _ & Hnew & Hresp & _ & _).
    rewrite Hresp in Hj. injection Hj as <-.
    apply newRowid_spec in Hnew. destruct Hnew as (_ & _ & Hmax).
    rewrite Hdb in Hmax.
    destruct (maxID (rows (db p))) as [m|] eqn:E.
    + specialize (Hmax m eq_refl).
      destruct (maxID_attained _ _ E) as (top & Htop & Hm).
      unfold rowidsValid in Hvalid. rewrite Forall_forall in Hvalid.
      specialize (Hvalid top Htop). rewrite Hm in Hvalid.
      assert (Hw : wrapInt (idCounter p' + 1) = idCounter p' + 1).
      { rewrite Hc. apply wrapInt_succ; [exact Hvalid|].
        unfold MAX_ROWID in Hmax. unfold maxInt. lia. }
      rewrite Hw. split; [reflexivity|].
      intros row Hin. pose proof (maxID_upper _ _ E row Hin). lia.
    + apply maxID_empty in E. rewrite Hc. split; [reflexivity|].
      intros row Hin. rewrite E in Hin. destruct Hin.
Qed.

Lemma restart_reseeds_counter_witness :
  let t := {| rows := [mkReview 2 "Ann" "Great" 5; mkReview 5 "Bob" "Fine" 4]; seq := 8 |} in
  let p := {| db := t; idCounter := 11; trace := [] |} in
  exists p',
    main Up (db p) = Some p'
    /\ db p' = t
    /\ idCounter p' = 5
    /\ createdID (fst (handlePostReview (post ann) Up p')) = Some 6
    /\ forall row, In row (rows t) -> ID row < 6.
Proof.
  cbv zeta.
  pose (t := {| rows := [mkReview 2 "Ann" "Great" 5; mkReview 5 "Bob" "Fine" 4];
                seq := 8 |}).
  pose (p := {| db := t; idCounter := 11; trace := [] |}).
  pose (p' := {| db := t; idCounter := 5; trace := [Exec CreateTable; Exec SelectMaxID] |}).
  assert (Hv : rowidsValid (db p)).
  { repeat constructor; unfold minInt, maxInt; simpl; lia. }
  destruct (restart_reseeds_counter Up p p' eq_refl Hv) as (Hdb & Hc & _ & _ & Hnext).
  exists p'. split; [reflexivity|]. split; [exact Hdb|]. split; [exact Hc|].
  split; [reflexivity|].
  exact (proj2 (Hnext (post ann) Up 6 eq_refl)).
Defined.

(** ** Where the code departs from the claims *)

(** [saveReview] never looks at the id of the review it is given. *)
Lemma saveReview_ignores_id (rv : Review) (i j : Z) :
  saveReview (withID rv i) = saveReview (withID rv j).
Proof. reflexivity. Qed.

(** C1.  The id in the create response is [idCounter]; the id of the stored
    row is chosen by the engine, since the insert names no id.  Here a first
    process creates a review and deletes it; the next process answers the
    create of Bob's review with id 1 and the table stores it under id 2. *)
Theorem returned_id_is_not_stored_id :
  lifetime empty [create ann; remove 1]
  = Some ([encode (JObj [("id", JNum 1); ("success", JBool true)]);
           respondWithJSON StatusOK (JObj [("success", JBool true)])],
          {| rows := []; seq := 1 |})
  /\ lifetime {| rows := []; seq := 1 |} [create bob]
     = Some ([encode (JObj [("id", JNum 1); ("success", JBool true)])],
             {| rows := [mkReview 2 "Bob" "Fine" 4]; seq := 2 |}).
Proof. split; reflexivity. Qed.

(** C2.  On the table the first process of C1 left, the create of Bob's
    review returns id 1; the delete carrying that id is answered 500, and
    the following List still shows the review, under id 2. *)
Theorem delete_by_returned_id_fails :
  lifetime {| rows := []; seq := 1 |} [create bob; remove 1; list_]
  = Some ([encode (JObj [("id", JNum 1); ("success", JBool true)]);
           respondWithJSON StatusInternalServerError
             (JObj [("error",
                     JStr "Failed to delete review: no review found with id 1")]);
           encode (JArr [encodeReview (mkReview 2 "Bob" "Fine" 4)])],
          {| rows := [mkReview 2 "Bob" "Fine" 4]; seq := 2 |}).
Proof. reflexivity. Qed.

(** C3.  On a table without rows the List handler answers 200 with the JSON
    value [null]: the slice of [loadReviews] is still nil when it is
    encoded. *)
Theorem list_of_empty_table_is_null (sq c : Z) (tr : list Event) :
  let p := {| db := {| rows := []; seq := sq |}; idCounter := c; trace := tr |} in
  fst (step list_ p) = encode JNull
  /\ fst (handleGetReviews (request list_) Up p)
     = {| Status := StatusOK; ContentType := "application/json"; Body := Json JNull |}
  /\ Json JNull <> Json (JArr []).
Proof. cbv zeta. split; [reflexivity|]. split; [reflexivity|discriminate]. Qed.

(** The delete path works on stored ids: a delete naming the id of a row in
    the table is answered 200 and leaves no row with that id. *)
Lemma delete_stored_id (r : Request) (id : Z) (p : Process) (row : Review) :
  method r = MethodDelete -> decodeID r = Some id ->
  In row (rows (db p)) -> ID row = id ->
  fst (deleteReviewHandler r Up p) = respondWithJSON StatusOK (JObj [("success", JBool true)])
  /\ forall row', In row' (rows (db (snd (deleteReviewHandler r Up p)))) -> ID row' <> id.
Proof.
  intros Hm Hid Hin Hrow.
  rewrite (delete_handler_spec r id Up p Hm Hid).
  destruct (delete_some id (db p) row Hin Hrow) as (n & Hn & Hpos).
  rewrite Hn. destruct (Z.eqb_spec n 0) as [E|_]; [lia|].
  split; [reflexivity|].
  intros row' Hin'. simpl in Hin'. apply filter_keeps_In in Hin'. tauto.
Qed.

(** * Further properties of the handlers *)

(** ** What one request does to the table *)

(** A request leaves the table alone, appends one row that passed the
    rating check under the rowid the engine chose, or removes the rows of
    the id a delete names. *)
Lemma step_table c p :
  db (snd (step c p)) = db p
  \/ (exists i rv,
        validated c = true /\ driver c = Up
        /\ decodeReview (request c) = Some rv /\ 1 <= Rating rv <= 5
        /\ newRowid (db p) = Some i
        /\ createdID (fst (step c p)) = Some (wrapInt (idCounter p + 1))
        /\ db (snd (step c p)) =
           {| rows := rows (db p) ++ [mkReview i (Name rv) (ReviewText rv) (Rating rv)];
              seq := i |})
  \/ (exists id, deletes id c
        /\ db (snd (step c p)) =
           {| rows := filter (keeps id) (rows (db p)); seq := seq (db p) |}).
Proof.
  destruct c as [pa r d]. unfold step, validated, deletes. cbn [path request driver].
  destruct pa; unfold serve, withCORS.
  - unfold reviewsHandler.
    destruct (method r) eqn:Hm; try (left; reflexivity).
    + rewrite get_spec. left. reflexivity.
    + destruct (post_cases r) as [H|[H|(rv & Hrv & Hr)]].
      * rewrite (post_malformed r d p H). left. reflexivity.
      * rewrite (post_out_of_range r d p H). left. reflexivity.
      * rewrite (post_accepted r rv d p Hrv Hr). unfold posted.
        destruct (insert d (db p) (Name rv) (ReviewText rv) (Rating rv))
          as [t' [e|]] eqn:E; cbn [fst snd db].
        -- left. pose proof (insert_failed d (db p) (Name rv) (ReviewText rv) (Rating rv)) as F.
           rewrite E in F. apply F. discriminate.
        -- right. left. apply insert_spec in E. destruct E as (i & Hd & Hi & ->).
           exists i, rv. rewrite Hrv.
           assert (Hb : (1 <=? Rating rv) && (Rating rv <=? 5) = true).
           { apply andb_true_iff. rewrite !Z.leb_le. exact Hr. }
           repeat split; try assumption; try reflexivity; lia.
  - destruct (method r) eqn:Hm;
      try (left; unfold deleteReviewHandler; rewrite ?Hm; reflexivity).
    destruct (decodeID r) as [id|] eqn:Hid.
    + rewrite (delete_handler_spec r id d p Hm Hid). cbn [snd db].
      destruct d as [|msg]; cbn [delete fst].
      * right. right. exists id. repeat split.
      * left. reflexivity.
    + left. unfold deleteReviewHandler. rewrite Hm, Hid. reflexivity.
Qed.

Lemma map_ID_filter_incl id rs x :
  In x (map ID (filter (keeps id) rs)) -> In x (map ID rs).
Proof.
  rewrite !in_map_iff. intros (r & Hr & Hin). exists r. split; [exact Hr|].
  apply filter_keeps_In in Hin. tauto.
Qed.

Lemma NoDup_map_ID_filter id rs :
  NoDup (map ID rs) -> NoDup (map ID (filter (keeps id) rs)).
Proof.
  induction rs as [|a rs IH]; intros H; [constructor|].
  simpl in H. inversion H as [|x l Hnotin Hnd]; subst.
  simpl. destruct (keeps id a); [|apply IH; exact Hnd].
  simpl. constructor; [|apply IH; exact Hnd].
  intros Hin. apply Hnotin. eapply map_ID_filter_incl. exact Hin.
Qed.

Lemma run_invariant (P : Process -> Prop) :
  (forall c p, P p -> P (snd (step c p))) ->
  forall cs p, P p -> P (snd (run cs p)).
Proof.
  intros Hstep. induction cs as [|c cs IH]; intros p Hp; [exact Hp|].
  cbn [run snd]. apply IH. apply Hstep. exact Hp.
Qed.

Lemma validated_spec c :
  validated c = true <->
  path c = PathReviews /\ method (request c) = MethodPost
  /\ exists rv, decodeReview (request c) = Some rv /\ 1 <= Rating rv <= 5.
Proof.
  unfold validated. destruct c as [pa r d]. cbn [path request].
  destruct pa, (method r), (decodeReview r) as [rv|];
    try (split; [discriminate|]; intros (H1 & H2 & rv' & H3 & H4); discriminate).
  rewrite andb_true_iff, !Z.leb_le. split.
  - intros H. repeat split; try reflexivity. exists rv. split; [reflexivity|exact H].
  - intros (_ & _ & rv' & [= <-] & H). exact H.
Qed.

(** The events one request adds to the trace depend on the request alone. *)
Lemma step_trace c p :
  trace (snd (step c p)) = trace p ++ sections c.
Proof.
  destruct c as [pa r d]. unfold step, sections, statement, validated.
  cbn [path request driver].
  destruct pa; unfold serve, withCORS.
  - unfold reviewsHandler.
    destruct (method r) eqn:Hm; try (cbn; rewrite app_nil_r; reflexivity).
    + rewrite get_spec. reflexivity.
    + destruct (post_cases r) as [H|[H|(rv & Hrv & Hr)]].
      * rewrite (post_malformed r d p H). unfold malformed in H. rewrite H.
        cbn. rewrite app_nil_r. reflexivity.
      * rewrite (post_out_of_range r d p H). destruct H as (rv & Hrv & Hr).
        rewrite Hrv.
        replace ((1 <=? Rating rv) && (Rating rv <=? 5)) with false.
        2:{ symmetry. apply andb_false_iff. rewrite !Z.leb_gt. lia. }
        cbn. rewrite app_nil_r. reflexivity.
      * rewrite (post_accepted r rv d p Hrv Hr). rewrite Hrv.
        replace ((1 <=? Rating rv) && (Rating rv <=? 5)) with true.
        2:{ symmetry. apply andb_true_iff. rewrite !Z.leb_le. lia. }
        unfold posted.
        destruct (snd (insert d (db p) (Name rv) (ReviewText rv) (Rating rv)));
          reflexivity.
  - destruct (method r) eqn:Hm;
      try (unfold deleteReviewHandler; rewrite ?Hm; cbn; rewrite app_nil_r; reflexivity).
    destruct (decodeID r) as [id|] eqn:Hid.
    + rewrite (delete_handler_spec r id d p Hm Hid). reflexivity.
    + unfold deleteReviewHandler. rewrite Hm, Hid. cbn. rewrite app_nil_r. reflexivity.
Qed.

(** ** The mutex and the statements *)

(** X1.  Over any sequence of requests the process takes the mutex once per
    statement it executes, directly before it, and releases it directly
    after, on the error paths as on the others; a request executes at most
    one statement, and which one depends on the request alone, not on the
    table or on the driver. *)
Theorem trace_of_run (cs : list Call) (p : Process) :
  trace (snd (run cs p)) = trace p ++ flat_map sections cs.
Proof.
  revert p. induction cs as [|c cs IH]; intros p.
  - cbn. rewrite app_nil_r. reflexivity.
  - cbn [run snd flat_map]. rewrite IH, step_trace, app_assoc. reflexivity.
Qed.

(** X2.  A request that executes no statement (a method the route does not
    handle, a pre-flight, a body that does not decode, a rating outside
    1..5) leaves the process exactly as it was, and is answered 200 without
    a body when it is a pre-flight and 400 or 405 otherwise. *)
Theorem no_statement_no_effect (c : Call) (p : Process) :
  statement c = None ->
  snd (step c p) = p
  /\ (method (request c) = MethodOptions ->
        fst (step c p) = {| Status := StatusOK; ContentType := ""; Body := NoBody |})
  /\ (method (request c) <> MethodOptions ->
        Status (fst (step c p)) = StatusBadRequest
        \/ Status (fst (step c p)) = StatusMethodNotAllowed).
Proof.
  destruct c as [pa r d]. unfold step, statement, validated.
  cbn [path request driver]. intros Hs.
  destruct pa; unfold serve, withCORS.
  - unfold reviewsHandler.
    destruct (method r) eqn:Hm; try discriminate;
      try (split; [reflexivity|]; split; [try discriminate; reflexivity|];
           intros Hne; try congruence; right; reflexivity).
    destruct (post_cases r) as [H|[H|(rv & Hrv & Hr)]].
    + rewrite (post_malformed r d p H). split; [reflexivity|].
      split; [discriminate|]. intros _. left. reflexivity.
    + rewrite (post_out_of_range r d p H). split; [reflexivity|].
      split; [discriminate|]. intros _. left. reflexivity.
    + exfalso. rewrite Hrv in Hs.
      replace ((1 <=? Rating rv) && (Rating rv <=? 5)) with true in Hs; [discriminate|].
      symmetry. apply andb_true_iff. rewrite !Z.leb_le. lia.
  - destruct (method r) eqn:Hm;
      try (unfold deleteReviewHandler; rewrite ?Hm;
           split; [reflexivity|]; split; [try discriminate; reflexivity|];
           intros Hne; try congruence; right; reflexivity).
    destruct (decodeID r) as [id|] eqn:Hid; [discriminate|].
    unfold deleteReviewHandler. rewrite Hm, Hid.
    split; [reflexivity|]. split; [discriminate|]. intros _. left. reflexivity.
Qed.

Lemma no_statement_no_effect_witness :
  let p := {| db := {| rows := [mkReview 1 "Ann" "Great" 5]; seq := 1 |};
              idCounter := 1; trace := [] |} in
  let put := {| path := PathReviews;
                request := {| method := MethodPut; decodeReview := Some ann;
                              decodeID := Some 1 |};
                driver := Up |} in
  let garbled := {| path := PathDeleteReview;
                    request := {| method := MethodDelete; decodeReview := None;
                                  decodeID := None |};
                    driver := Up |} in
  (snd (step put p) = p /\ Status (fst (step put p)) = StatusMethodNotAllowed)
  /\ (snd (step garbled p) = p /\ Status (fst (step garbled p)) = StatusBadRequest).
Proof.
  cbv zeta. split.
  - split; [|reflexivity].
    apply (no_statement_no_effect
             {| path := PathReviews;
                request := {| method := MethodPut; decodeReview := Some ann;
                              decodeID := Some 1 |};
                driver := Up |}). reflexivity.
  - split; [|reflexivity].
    apply (no_statement_no_effect
             {| path := PathDeleteReview;
                request := {| method := MethodDelete; decodeReview := None;
                              decodeID := None |};
                driver := Up |}). reflexivity.
Defined.

(** ** A failing driver *)



(** ** Delete *)

(** X4.  A delete naming the id of a stored review is answered 200 with
    [{"success": true}]; it removes the rows of that id and nothing else:
    the other rows stay, in their order, and neither the recorded sequence
    nor [idCounter] moves. *)
Theorem delete_removes_exactly (r : Request) (id : Z) (p : Process) (row : Review) :
  method r = MethodDelete ->
  decodeID r = Some id ->
  In row (rows (db p)) ->
  ID row = id ->
  let p' := snd (deleteReviewHandler r Up p) in
  fst (deleteReviewHandler r Up p) =
    respondWithJSON StatusOK (JObj [("success", JBool true)])
  /\ rows (db p') = filter (keeps id) (rows (db p))
  /\ (forall row', In row' (rows (db p')) <-> In row' (rows (db p)) /\ ID row' <> id)
  /\ seq (db p') = seq (db p)
  /\ idCounter p' = idCounter p.
Proof.
  intros Hm Hid Hin Hrow. cbv zeta.
  rewrite (delete_handler_spec r id Up p Hm Hid).
  destruct (delete_some id (db p) row Hin Hrow) as (n & Hn & Hpos).
  rewrite Hn. destruct (Z.eqb_spec n 0) as [E|_]; [lia|].
  cbn [fst snd db idCounter delete rows seq].
  split; [reflexivity|]. split; [reflexivity|].
  split; [intros row'; apply filter_keeps_In|]. split; reflexivity.
Qed.

Lemma delete_removes_exactly_witness :
  let p := {| db := {| rows := [mkReview 1 "Ann" "Great" 5; mkReview 2 "Bob" "Fine" 4;
                                mkReview 4 "Cy" "Poor" 1];
                       seq := 4 |};
              idCounter := 4; trace := [] |} in
  let p' := snd (deleteReviewHandler (del 2) Up p) in
  fst (deleteReviewHandler (del 2) Up p) =
    respondWithJSON StatusOK (JObj [("success", JBool true)])
  /\ rows (db p') = [mkReview 1 "Ann" "Great" 5; mkReview 4 "Cy" "Poor" 1]
  /\ seq (db p') = 4
  /\ idCounter p' = 4.
Proof.
  cbv zeta.
  pose (p := {| db := {| rows := [mkReview 1 "Ann" "Great" 5; mkReview 2 "Bob" "Fine" 4;
                                  mkReview 4 "Cy" "Poor" 1];
                         seq := 4 |};
                idCounter := 4; trace := [] |}).
  destruct (delete_removes_exactly (del 2) 2 p (mkReview 2 "Bob" "Fine" 4)
              eq_refl eq_refl (or_intror (or_introl eq_refl)) eq_refl)
    as (Hresp & Hrows & _ & Hseq & Hc).
  split; [exact Hresp|]. split; [exact Hrows|]. split; [exact Hseq|exact Hc].
Defined.

(** X5.  Deleting is not repeatable: after a delete that succeeded, a second
    delete of the same id, on the route and with the driver up, is answered
    500 with the not-found message, and changes nothing in the table. *)
Theorem delete_twice (r : Request) (id : Z) (p : Process) :
  method r = MethodDelete ->
  decodeID r = Some id ->
  Status (fst (deleteReviewHandler r Up p)) = StatusOK ->
  let p' := snd (deleteReviewHandler r Up p) in
  fst (deleteReviewHandler r Up p') =
    respondWithJSON StatusInternalServerError
      (JObj [("error",
              JStr ("Failed to delete review: " ++
                    ("no review found with id " ++ formatInt id))%string)])
  /\ db (snd (deleteReviewHandler r Up p')) = db p'.
Proof.
  intros Hm Hid Hok. cbv zeta.
  assert (Hnone : forall row, In row (rows (db (snd (deleteReviewHandler r Up p)))) ->
                              ID row <> id).
  { rewrite (delete_handler_spec r id Up p Hm Hid). cbn [snd db delete fst rows].
    intros row Hin. apply filter_keeps_In in Hin. tauto. }
  rewrite (delete_handler_spec r id Up _ Hm Hid).
  rewrite (delete_none id _ Hnone). split; reflexivity.
Qed.

Lemma delete_twice_witness :
  let p := {| db := {| rows := [mkReview 1 "Ann" "Great" 5]; seq := 1 |};
              idCounter := 1; trace := [] |} in
  map Status (fst (run [remove 1; remove 1] p)) =
    [StatusOK; StatusInternalServerError]
  /\ fst (deleteReviewHandler (del 1) Up (snd (deleteReviewHandler (del 1) Up p))) =
     respondWithJSON StatusInternalServerError
       (JObj [("error", JStr "Failed to delete review: no review found with id 1")]).
Proof.
  cbv zeta. split; [reflexivity|].
  apply (delete_twice (del 1) 1
           {| db := {| rows := [mkReview 1 "Ann" "Great" 5]; seq := 1 |};
              idCounter := 1; trace := [] |}); reflexivity.
Defined.

(** ** List *)



(** X7.  Create then List: when a create is answered 200, the List that
    follows returns the rows that were there, in their order, followed by
    one new row carrying the submitted name, text and rating. *)
Theorem create_then_list (rv : Review) (p : Process) :
  Status (fst (step (create rv) p)) = StatusOK ->
  exists i,
    newRowid (db p) = Some i
    /\ nth 1 (fst (run [create rv; list_] p)) (httpError "" 0) =
       encode (JArr (map encodeReview
                       (rows (db p) ++ [mkReview i (Name rv) (ReviewText rv) (Rating rv)]))).
Proof.
  intros Hok.
  change (step (create rv) p) with (handlePostReview (post rv) Up p) in Hok.
  destruct (post_ok_inv (post rv) Up p Hok)
    as (rv' & i & Hrv & _ & _ & Hnew & _ & Hdb & _).
  injection Hrv as <-.
  exists i. split; [exact Hnew|].
  cbn [run fst snd nth].
  change (step (create rv) p) with (handlePostReview (post rv) Up p).
  change (step list_ ?q) with (handleGetReviews get Up q).
  rewrite get_spec. cbn [fst selectAll]. rewrite Hdb. cbn [rows].
  rewrite scanRows_spec.
  destruct (rows (db p) ++ [mkReview i (Name rv) (ReviewText rv) (Rating rv)]) eqn:E.
  - destruct (rows (db p)); discriminate.
  - reflexivity.
Qed.

Lemma create_then_list_witness :
  exists i,
    newRowid empty = Some i
    /\ nth 1 (fst (run [create ann; list_] (mkProcess empty 0 []))) (httpError "" 0) =
       encode (JArr (map encodeReview ([] ++ [mkReview i "Ann" "Great" 5]))).
Proof.
  apply (create_then_list ann (mkProcess empty 0 [])). reflexivity.
Defined.

(** ** Invariants of the table *)

(** X8.  The rating check guards the table: if every stored rating lies in
    1..5, it still does after any sequence of requests, whatever the
    driver does in between. *)
Theorem ratings_stay_valid (cs : list Call) (p : Process) :
  ratingsValid (db p) -> ratingsValid (db (snd (run cs p))).
Proof.
  apply (run_invariant (fun q => ratingsValid (db q))). clear cs p.
  intros c p Hp. unfold ratingsValid in *.
  destruct (step_table c p)
    as [E|[(i & rv & _ & _ & _ & Hr & _ & _ & E)|(id & _ & E)]]; rewrite E.
  - exact Hp.
  - cbn [rows]. apply Forall_app. split; [exact Hp|].
    constructor; [exact Hr|constructor].
  - cbn [rows]. rewrite Forall_forall in *. intros row Hin.
    apply filter_keeps_In in Hin. apply Hp. tauto.
Qed.

Lemma ratings_stay_valid_witness :
  let cs := [create ann; create (mkReview 0 "Eve" "Bad" 9); remove 1; create bob] in
  let p := {| db := empty; idCounter := 0; trace := [] |} in
  rows (db (snd (run cs p))) = [mkReview 2 "Bob" "Fine" 4]
  /\ ratingsValid (db (snd (run cs p))).
Proof.
  cbv zeta. split; [reflexivity|].
  apply ratings_stay_valid. constructor.
Defined.

(** X9.  Stored ids stay distinct: if the ids of the table are pairwise
    distinct and none is above the recorded sequence, the same holds after
    any sequence of requests, and the recorded sequence has not gone down. *)
Theorem ids_stay_distinct (cs : list Call) (p : Process) :
  keyed (db p) ->
  keyed (db (snd (run cs p))) /\ seq (db p) <= seq (db (snd (run cs p))).
Proof.
  intros Hk.
  apply (run_invariant (fun q => keyed (db q) /\ seq (db p) <= seq (db q)));
    [|split; [exact Hk|lia]].
  clear cs Hk. intros c q [[Hnd Hle] Hseq]. unfold keyed.
  destruct (step_table c q)
    as [E|[(i & rv & _ & _ & _ & _ & Hnew & _ & E)|(id & _ & E)]]; rewrite E.
  - repeat split; assumption.
  - cbn [rows seq]. apply newRowid_spec in Hnew. destruct Hnew as (Hfresh & Hs & _).
    repeat split.
    + rewrite map_app. cbn [map ID]. apply NoDup_app.
      * exact Hnd.
      * repeat constructor. intros [].
      * intros x Hin [<-|[]]. apply in_map_iff in Hin.
        destruct Hin as (row & Hrow & Hin). specialize (Hfresh row Hin). lia.
    + apply Forall_app. split.
      * rewrite Forall_forall in *. intros row Hin. specialize (Hle row Hin). lia.
      * constructor; [cbn; lia|constructor].
    + lia.
  - cbn [rows seq]. repeat split.
    + apply NoDup_map_ID_filter. exact Hnd.
    + rewrite Forall_forall in *. intros row Hin.
      apply filter_keeps_In in Hin. apply Hle. tauto.
    + exact Hseq.
Qed.

Lemma ids_stay_distinct_witness :
  let cs := [create ann; remove 1; create bob; create ann] in
  let p := {| db := empty; idCounter := 0; trace := [] |} in
  map ID (rows (db (snd (run cs p)))) = [2; 3]
  /\ keyed (db (snd (run cs p)))
  /\ seq (db p) <= seq (db (snd (run cs p))).
Proof.
  cbv zeta. split; [reflexivity|].
  apply ids_stay_distinct. split; constructor.
Defined.

(** ** The counter *)

Lemma step_post r d p :
  method r = MethodPost ->
  step {| path := PathReviews; request := r; driver := d |} p = handlePostReview r d p.
Proof.
  intros Hm. unfold step, serve, withCORS, reviewsHandler. cbn [path request driver].
  rewrite Hm. reflexivity.
Qed.

(** The counter moves for the calls that passed both checks of
    [handlePostReview], and for no other; only those can return an id. *)
Lemma step_counter_validated c p :
  idCounter (snd (step c p)) =
    (if validated c then wrapInt (idCounter p + 1) else idCounter p)
  /\ (validated c = false -> createdID (fst (step c p)) = None).
Proof.
  destruct (validated c) eqn:V.
  - apply validated_spec in V. destruct V as (Hp & Hm & rv & Hrv & Hr).
    destruct c as [pa r d]. cbn [path request] in *. subst pa.
    rewrite (step_post r d p Hm), (post_accepted r rv d p Hrv Hr). unfold posted.
    split; [|discriminate].
    destruct (snd (insert d (db p) (Name rv) (ReviewText rv) (Rating rv))); reflexivity.
  - destruct c as [pa r d]. unfold step, validated in *. cbn [path request driver] in *.
    destruct pa; unfold serve, withCORS.
    + unfold reviewsHandler. destruct (method r) eqn:Hm; try (split; reflexivity).
      * rewrite get_spec. cbn [fst snd idCounter]. split; [reflexivity|]. intros _.
        destruct (selectAll d (db p)); [apply createdID_list|reflexivity].
      * destruct (post_cases r) as [H|[H|(rv & Hrv & Hr)]].
        -- rewrite (post_malformed r d p H). split; reflexivity.
        -- rewrite (post_out_of_range r d p H). split; reflexivity.
        -- rewrite Hrv in V. apply andb_false_iff in V. rewrite !Z.leb_gt in V. lia.
    + destruct (method r) eqn:Hm;
        try (unfold deleteReviewHandler; rewrite ?Hm; split; reflexivity).
      destruct (decodeID r) as [id|] eqn:Hid.
      * rewrite (delete_handler_spec r id d p Hm Hid). cbn [fst snd idCounter].
        split; [reflexivity|]. intros _.
        destruct (snd (delete d (db p) id)) as [n|e]; [|reflexivity].
        destruct (n =? 0); reflexivity.
      * unfold deleteReviewHandler. rewrite Hm, Hid. split; reflexivity.
Qed.

(** X10.  The counter counts the creates that passed validation: after any
    sequence of requests it stands above its start by the number of those
    creates, whether their inserts succeeded or not; lists, deletes and
    requests turned away do not move it (while it stays within the range of
    [int]). *)
Theorem counter_counts_validated (cs : list Call) (p : Process) :
  inRange (idCounter p) ->
  idCounter p + Z.of_nat (List.length (filter validated cs)) <= maxInt ->
  idCounter (snd (run cs p)) =
  idCounter p + Z.of_nat (List.length (filter validated cs)).
Proof.
  revert p. induction cs as [|c cs IH]; intros p Hr Hb.
  - cbn. lia.
  - cbn [run snd filter] in *.
    destruct (step_counter_validated c p) as [Hc _].
    destruct (validated c).
    + cbn [List.length] in *. rewrite Nat2Z.inj_succ in *.
      rewrite wrapInt_succ in Hc; [|exact Hr|lia].
      rewrite IH; rewrite Hc; [lia| |lia].
      destruct Hr. unfold inRange. lia.
    + rewrite IH; rewrite Hc; [reflexivity|exact Hr|exact Hb].
Qed.

Lemma counter_counts_validated_witness :
  let cs := [create ann; list_; create (mkReview 0 "Eve" "Bad" 0);
             {| path := PathReviews; request := post bob; driver := Down "disk I/O error" |};
             remove 1] in
  let p := {| db := empty; idCounter := 0; trace := [] |} in
  idCounter (snd (run cs p)) = 0 + Z.of_nat 2.
Proof.
  cbv zeta.
  apply (counter_counts_validated
           [create ann; list_; create (mkReview 0 "Eve" "Bad" 0);
            {| path := PathReviews; request := post bob; driver := Down "disk I/O error" |};
            remove 1]
           {| db := empty; idCounter := 0; trace := [] |}).
  - unfold inRange, minInt, maxInt. simpl. lia.
  - unfold maxInt. simpl. lia.
Defined.

(** X11.  The id a client puts in the body of a create has no effect: two
    creates that agree on name, text and rating are answered alike and
    leave the same process behind. *)
Theorem create_ignores_submitted_id (r1 r2 : Request) (rv1 rv2 : Review) (d : Driver)
    (p : Process) :
  decodeReview r1 = Some rv1 ->
  decodeReview r2 = Some rv2 ->
  Name rv1 = Name rv2 ->
  ReviewText rv1 = ReviewText rv2 ->
  Rating rv1 = Rating rv2 ->
  handlePostReview r1 d p = handlePostReview r2 d p.
Proof.
  intros H1 H2 Hn Ht Hk.
  destruct (Z_lt_dec (Rating rv1) 1) as [Hlo|Hlo].
  - rewrite (post_out_of_range r1 d p), (post_out_of_range r2 d p);
      [reflexivity|exists rv2|exists rv1]; (split; [assumption|lia]).
  - destruct (Z_lt_dec 5 (Rating rv1)) as [Hhi|Hhi].
    + rewrite (post_out_of_range r1 d p), (post_out_of_range r2 d p);
        [reflexivity|exists rv2|exists rv1]; (split; [assumption|lia]).
    + rewrite (post_accepted r1 rv1 d p H1), (post_accepted r2 rv2 d p H2); try lia.
      unfold posted. rewrite Hn, Ht, Hk. reflexivity.
Qed.

Lemma create_ignores_submitted_id_witness :
  let p := {| db := {| rows := [mkReview 1 "Ann" "Great" 5]; seq := 1 |};
              idCounter := 1; trace := [] |} in
  handlePostReview (post (mkReview 1 "Bob" "Fine" 4)) Up p =
  handlePostReview (post (mkReview 77 "Bob" "Fine" 4)) Up p.
Proof.
  cbv zeta.
  apply (create_ignores_submitted_id
           (post (mkReview 1 "Bob" "Fine" 4)) (post (mkReview 77 "Bob" "Fine" 4))
           (mkReview 1 "Bob" "Fine" 4) (mkReview 77 "Bob" "Fine" 4));
    reflexivity.
Defined.

(** ** Counter and sequence in step *)






(** ** Start-up *)

(** X13.  Start-up fails when the driver fails, and otherwise executes the
    schema statement and the maximum query, without taking the mutex.  On a
    table whose recorded sequence is its largest id (0 for a table without
    rows) the process starts with the counter at that sequence, so that the
    ids it returns are the ids it stores (X12). *)
Theorem startup_in_sync (d : Driver) (file : Table) :
  seq file = match maxID (rows file) with Some m => m | None => 0 end ->
  0 <= seq file ->
  (d = Up ->
     exists p, main d file = Some p /\ inSync p /\ db p = file
               /\ trace p = [Exec CreateTable; Exec SelectMaxID])
  /\ (forall msg, d = Down msg -> main d file = None).
Proof.
  intros Hseq H0. split.
  - intros ->. rewrite main_Up. eexists. split; [reflexivity|].
    unfold inSync. cbn [db idCounter trace]. repeat split; try assumption.
    + symmetry. exact Hseq.
    + rewrite Forall_forall. intros row Hin.
      destruct (maxID (rows file)) as [m|] eqn:E.
      * rewrite Hseq. exact (maxID_upper _ _ E row Hin).
      * apply maxID_empty in E. rewrite E in Hin. destruct Hin.
  - intros msg ->. reflexivity.
Qed.

Lemma startup_in_sync_witness :
  let file := {| rows := [mkReview 1 "Ann" "Great" 5; mkReview 3 "Bob" "Fine" 4]; seq := 3 |} in
  (exists p, main Up file = Some p /\ inSync p /\ db p = file
             /\ trace p = [Exec CreateTable; Exec SelectMaxID])
  /\ main (Down "unable to open database file") file = None.
Proof.
  cbv zeta.
  pose (file := {| rows := [mkReview 1 "Ann" "Great" 5; mkReview 3 "Bob" "Fine" 4];
                   seq := 3 |}).
  assert (Hseq : seq file = match maxID (rows file) with Some m => m | None => 0 end)
    by reflexivity.
  assert (H0 : 0 <= seq file) by (simpl; lia).
  split.
  - exact (proj1 (startup_in_sync Up file Hseq H0) eq_refl).
  - exact (proj2 (startup_in_sync (Down "unable to open database file") file Hseq H0)
             "unable to open database file" eq_refl).
Defined.

(** ** Stored ids *)

(** X14.  Stored ids are not reused: every row in the table after a
    sequence of requests either was there before, or carries an id above the
    sequence recorded before, which no id the table held exceeds when the
    table is keyed (X9). *)
Theorem stored_ids_never_reused (cs : list Call) (p : Process) (row : Review) :
  In row (rows (db (snd (run cs p)))) ->
  In row (rows (db p)) \/ seq (db p) < ID row.
Proof.
  revert row.
  assert (H : (forall row, In row (rows (db (snd (run cs p)))) ->
                           In row (rows (db p)) \/ seq (db p) < ID row)
              /\ seq (db p) <= seq (db (snd (run cs p)))).
  { apply (run_invariant
             (fun q => (forall row, In row (rows (db q)) ->
                                    In row (rows (db p)) \/ seq (db p) < ID row)
                       /\ seq (db p) <= seq (db q))).
    - clear cs. intros c q [Hrows Hseq].
      destruct (step_table c q)
        as [E|[(i & rv & _ & _ & _ & _ & Hnew & _ & E)|(id & _ & E)]]; rewrite E.
      + split; assumption.
      + apply newRowid_spec in Hnew. destruct Hnew as (_ & Hs & _).
        cbn [rows seq]. split; [|lia].
        intros row Hin. apply in_app_or in Hin. destruct Hin as [Hin|[<-|[]]].
        * apply Hrows. exact Hin.
        * right. cbn [ID]. lia.
      + cbn [rows seq]. split; [|exact Hseq].
        intros row Hin. apply filter_keeps_In in Hin. apply Hrows. tauto.
    - split; [intros row Hin; left; exact Hin|lia]. }
  exact (proj1 H).
Qed.

Lemma stored_ids_never_reused_witness :
  let p := {| db := {| rows := []; seq := 5 |}; idCounter := 0; trace := [] |} in
  rows (db (snd (run [create ann] p))) = [mkReview 6 "Ann" "Great" 5]
  /\ (In (mkReview 6 "Ann" "Great" 5) (rows (db p)) \/ seq (db p) < 6).
Proof.
  cbv zeta. split; [reflexivity|].
  apply (stored_ids_never_reused [create ann]
           {| db := {| rows := []; seq := 5 |}; idCounter := 0; trace := [] |}
           (mkReview 6 "Ann" "Great" 5)).
  left. reflexivity.
Defined.

(** X15.  A delete is answered 200 only when it removed something: the
    request was a DELETE whose body decoded to an id, the driver was up, and
    a stored review carried that id. *)
Theorem delete_ok_only_if_removed (r : Request) (d : Driver) (p : Process) :
  Status (fst (deleteReviewHandler r d p)) = StatusOK ->
  method r = MethodDelete
  /\ d = Up
  /\ exists id row,
       decodeID r = Some id /\ In row (rows (db p)) /\ ID row = id
       /\ rows (db (snd (deleteReviewHandler r d p))) = filter (keeps id) (rows (db p)).
Proof.
  intros Hok.
  destruct (method r) eqn:Hm;
    try (unfold deleteReviewHandler in Hok; rewrite Hm in Hok; discriminate).
  destruct (decodeID r) as [id|] eqn:Hid;
    [|unfold deleteReviewHandler in Hok; rewrite Hm, Hid in Hok; discriminate].
  rewrite (delete_handler_spec r id d p Hm Hid) in Hok |- *.
  destruct d as [|msg]; [|discriminate].
  split; [reflexivity|]. split; [reflexivity|].
  cbn [fst snd delete db rows] in *.
  destruct (Z.eqb_spec (Z.of_nat (List.length (rows (db p))) -
                        Z.of_nat (List.length (filter (keeps id) (rows (db p))))) 0)
    as [E|E]; [discriminate|].
  assert (Hex : exists row, In row (rows (db p)) /\ ID row = id).
  { destruct (existsb (fun row => ID row =? id) (rows (db p))) eqn:X.
    - apply existsb_exists in X. destruct X as (row & Hin & Hrow).
      exists row. split; [exact Hin|apply Z.eqb_eq; exact Hrow].
    - exfalso. apply E. rewrite filter_keeps_length; [lia|].
      intros row Hin Hrow.
      assert (Y : existsb (fun row => ID row =? id) (rows (db p)) = true).
      { apply existsb_exists. exists row. split; [exact Hin|apply Z.eqb_eq; exact Hrow]. }
      congruence. }
  destruct Hex as (row & Hin & Hrow).
  exists id, row. repeat split; assumption.
Qed.

Lemma delete_ok_only_if_removed_witness :
  let p := {| db := {| rows := [mkReview 1 "Ann" "Great" 5; mkReview 2 "Bob" "Fine" 4];
                       seq := 2 |};
              idCounter := 2; trace := [] |} in
  exists id row,
    decodeID (del 2) = Some id /\ In row (rows (db p)) /\ ID row = id
    /\ rows (db (snd (deleteReviewHandler (del 2) Up p))) = filter (keeps id) (rows (db p)).
Proof.
  cbv zeta.
  exact (proj2 (proj2 (delete_ok_only_if_removed (del 2) Up
           {| db := {| rows := [mkReview 1 "Ann" "Great" 5; mkReview 2 "Bob" "Fine" 4];
                       seq := 2 |};
              idCounter := 2; trace := [] |} eq_refl))).
Defined.
